(** * Circuit breaker of the API gateway (api-gateway-v2, as listed in README.md)

    Shallow embedding of [State], [CircuitBreaker], [Execute],
    [recordFailure], [recordSuccess] and [GetState].  The mutex is not
    modelled: every call runs sequentially, the two critical sections of
    [Execute] with nothing interleaved between them.  Go's [int] is a
    64-bit integer and its [++] wraps; [time.Time] readings are instants in
    nanoseconds, and [time.Since] is [Sub], which saturates to the range of
    [time.Duration] (an int64).  Module [Http] embeds the handlers of
    product-service, recommendations-service and both API gateways. *)

From Stdlib Require Import ZArith List String Bool Lia.
Import ListNotations.
Open Scope Z_scope.

Module CB.

(** ** 64-bit integers *)

Definition min_int64 : Z := - 2 ^ 63.
Definition max_int64 : Z := 2 ^ 63 - 1.

(** [x++] on a Go [int]: wraps from [max_int64] to [min_int64]. *)
Definition incr64 (x : Z) : Z :=
  if x =? max_int64 then min_int64 else x + 1.

(** [t.Sub(u)] on monotonic readings: the difference, saturated to the
    range of [time.Duration]. *)
Definition Sub (t u : Z) : Z :=
  let d := t - u in
  if d >? max_int64 then max_int64
  else if d <? min_int64 then min_int64
  else d.

(** [time.Since(t)] read at instant [now]. *)
Definition Since (now t : Z) : Z := Sub now t.

Definition Second : Z := 1000000000.

(** ** Data model *)

Inductive State : Type :=
| StateClosed
| StateOpen
| StateHalfOpen.

Definition State_eqb (a b : State) : bool :=
  match a, b with
  | StateClosed, StateClosed | StateOpen, StateOpen
  | StateHalfOpen, StateHalfOpen => true
  | _, _ => false
  end.

(** [func (s State) String() string] *)
Definition State_String (s : State) : string :=
  match s with
  | StateClosed => "CLOSED"
  | StateOpen => "OPEN"
  | StateHalfOpen => "HALF-OPEN"
  end.

Record CircuitBreaker : Type := mkCB {
  state : State;
  failureCount : Z;
  successCount : Z;
  lastFailureTime : Z;
  maxFailures : Z;
  timeout : Z;
  halfOpenTimeout : Z
}.

(** Field updates, one per assignment the Go code performs. *)
Definition set_state (cb : CircuitBreaker) (s : State) : CircuitBreaker :=
  mkCB s cb.(failureCount) cb.(successCount) cb.(lastFailureTime)
       cb.(maxFailures) cb.(timeout) cb.(halfOpenTimeout).
Definition set_failureCount (cb : CircuitBreaker) (n : Z) : CircuitBreaker :=
  mkCB cb.(state) n cb.(successCount) cb.(lastFailureTime)
       cb.(maxFailures) cb.(timeout) cb.(halfOpenTimeout).
Definition set_successCount (cb : CircuitBreaker) (n : Z) : CircuitBreaker :=
  mkCB cb.(state) cb.(failureCount) n cb.(lastFailureTime)
       cb.(maxFailures) cb.(timeout) cb.(halfOpenTimeout).
Definition set_lastFailureTime (cb : CircuitBreaker) (t : Z) : CircuitBreaker :=
  mkCB cb.(state) cb.(failureCount) cb.(successCount) t
       cb.(maxFailures) cb.(timeout) cb.(halfOpenTimeout).

(** [NewCircuitBreaker()]; the zero [time.Time] is read as instant 0. *)
Definition NewCircuitBreaker : CircuitBreaker :=
  mkCB StateClosed 0 0 0 3 (10 * Second) (5 * Second).

(** ** recordFailure, recordSuccess (called with the lock held) *)

(** [recordFailure], where [now] is the reading of [time.Now()]. *)
Definition recordFailure (now : Z) (cb : CircuitBreaker) : CircuitBreaker :=
  let cb := set_failureCount cb (incr64 cb.(failureCount)) in
  let cb := set_lastFailureTime cb now in
  if State_eqb cb.(state) StateHalfOpen then
    set_failureCount (set_state cb StateOpen) 0
  else if cb.(failureCount) >=? cb.(maxFailures) then
    set_failureCount (set_state cb StateOpen) 0
  else cb.

Definition recordSuccess (cb : CircuitBreaker) : CircuitBreaker :=
  let cb := set_failureCount cb 0 in
  if State_eqb cb.(state) StateHalfOpen then
    let cb := set_successCount cb (incr64 cb.(successCount)) in
    if cb.(successCount) >=? 2 then
      set_successCount (set_state cb StateClosed) 0
    else cb
  else cb.

(** ** Execute *)

Section Execute.

(** The error type of the wrapped operation [fn]. *)
Variable E : Type.

(** The errors [Execute] can return: the breaker's own
    [fmt.Errorf("circuit breaker is OPEN")], or the operation's error. *)
Inductive ExecError : Type :=
| ErrCircuitOpen
| ErrOperation (e : E).

(** Outcome of one call: the returned error ([None] is [nil]), the
    breaker afterwards, and how many times [fn] was invoked. *)
Record ExecResult : Type := mkResult {
  err : option ExecError;
  breaker : CircuitBreaker;
  invocations : nat
}.

(** First critical section of [Execute]: either the early return with
    the lock released, or the [currentState] captured just before
    [cb.mu.Unlock()] together with the breaker at that point. *)
Inductive Phase1 : Type :=
| EarlyOpen (cb : CircuitBreaker)
| Captured (currentState : State) (cb : CircuitBreaker).

Definition execute_phase1 (now : Z) (cb : CircuitBreaker) : Phase1 :=
  if State_eqb cb.(state) StateOpen then
    if Since now cb.(lastFailureTime) >? cb.(timeout) then
      let cb := set_successCount (set_state cb StateHalfOpen) 0 in
      Captured cb.(state) cb
    else EarlyOpen cb
  else Captured cb.(state) cb.

(** [Execute(fn)]: [now_check] is the instant read by [time.Since],
    [fn_result] what [fn()] returns when it is invoked, [now_fail] the
    instant read by [time.Now()] inside [recordFailure]. *)
Definition Execute (now_check : Z) (fn_result : option E) (now_fail : Z)
    (cb : CircuitBreaker) : ExecResult :=
  match execute_phase1 now_check cb with
  | EarlyOpen cb => mkResult (Some ErrCircuitOpen) cb 0
  | Captured currentState cb =>
      if State_eqb currentState StateOpen then
        mkResult (Some ErrCircuitOpen) cb 0
      else
        match fn_result with
        | Some e => mkResult (Some (ErrOperation e)) (recordFailure now_fail cb) 1
        | None => mkResult None (recordSuccess cb) 1
        end
  end.

End Execute.

Arguments ErrCircuitOpen {E}.
Arguments ErrOperation {E} e.
Arguments mkResult {E} err breaker invocations.
Arguments err {E} _.
Arguments breaker {E} _.
Arguments invocations {E} _.
Arguments Execute {E} now_check fn_result now_fail cb.

(** ** GetState *)

(** [GetState()] in state-passing style: the returned string and the
    breaker after the call. *)
Definition GetState (cb : CircuitBreaker) : string * CircuitBreaker :=
  (State_String cb.(state), cb).

(** ** Runs of recorded outcomes *)

Inductive Event : Type :=
| Failure (now : Z)
| Success.

Definition record (cb : CircuitBreaker) (ev : Event) : CircuitBreaker :=
  match ev with
  | Failure now => recordFailure now cb
  | Success => recordSuccess cb
  end.

Definition run (cb : CircuitBreaker) (evs : list Event) : CircuitBreaker :=
  fold_left record evs cb.

(** ** Sequences of [Execute] calls *)

Definition set_halfOpenTimeout (cb : CircuitBreaker) (d : Z) : CircuitBreaker :=
  mkCB cb.(state) cb.(failureCount) cb.(successCount) cb.(lastFailureTime)
       cb.(maxFailures) cb.(timeout) d.

(** One [Execute] call per element: the instant read by [time.Since], what
    [fn] returns, the instant read by [time.Now()] in [recordFailure]. *)
Fixpoint execute_all {E : Type} (cb : CircuitBreaker)
    (calls : list (Z * option E * Z)) : CircuitBreaker :=
  match calls with
  | [] => cb
  | (now_check, r, now_fail) :: calls =>
      execute_all (breaker (Execute now_check r now_fail cb)) calls
  end.

(** The relation between the fields that every breaker reachable from
    [NewCircuitBreaker] keeps. *)
Definition breaker_inv (cb : CircuitBreaker) : Prop :=
  1 <= cb.(maxFailures) <= max_int64 /\
  0 <= cb.(failureCount) < cb.(maxFailures) /\
  (cb.(state) <> StateClosed -> cb.(failureCount) = 0) /\
  0 <= cb.(successCount) <= 1 /\
  (cb.(state) = StateClosed -> cb.(successCount) = 0).

End CB.

(** * The HTTP handlers of the services and the gateway

    Go strings are modelled as sequences of Unicode code points (paths are
    valid UTF-8).  Each downstream HTTP request is abstracted by the reply
    it gets; JSON encoding is abstracted by the Go value written. *)

Module Http.
Local Open Scope bool_scope.
Import CB.

Definition gostring : Type := list Z.

(** A Go string literal (all literals used here are ASCII). *)
Fixpoint str (s : string) : gostring :=
  match s with
  | EmptyString => []
  | String c s => Z.of_nat (Ascii.nat_of_ascii c) :: str s
  end.

Definition gostring_eqb (a b : gostring) : bool :=
  if list_eq_dec Z.eq_dec a b then true else false.

(** [unicode.IsSpace]: the Latin-1 spaces, then the [White_Space] table
    above Latin-1. *)
Definition IsSpace (r : Z) : bool :=
  if (0 <=? r) && (r <=? 255) then
    (r =? 9) || (r =? 10) || (r =? 11) || (r =? 12) || (r =? 13) || (r =? 32)
    || (r =? 133) || (r =? 160)
  else
    (r =? 5760) || ((8192 <=? r) && (r <=? 8202)) || (r =? 8232) || (r =? 8233)
    || (r =? 8239) || (r =? 8287) || (r =? 12288).

(** [strings.TrimLeftFunc] and [strings.TrimRightFunc]. *)
Fixpoint TrimLeftFunc (f : Z -> bool) (s : gostring) : gostring :=
  match s with
  | [] => []
  | r :: s' => if f r then TrimLeftFunc f s' else s
  end.

Definition TrimRightFunc (f : Z -> bool) (s : gostring) : gostring :=
  rev (TrimLeftFunc f (rev s)).

(** [strings.TrimSpace]: on valid UTF-8 its ASCII fast path and its
    fallback to [TrimFunc(s, unicode.IsSpace)] agree with trimming
    [unicode.IsSpace] code points at both ends. *)
Definition TrimSpace (s : gostring) : gostring :=
  TrimRightFunc IsSpace (TrimLeftFunc IsSpace s).

Fixpoint HasPrefix (s prefix : gostring) {struct prefix} : bool :=
  match prefix, s with
  | [], _ => true
  | p :: prefix', c :: s' => (p =? c) && HasPrefix s' prefix'
  | _ :: _, [] => false
  end.

(** [strings.TrimPrefix] *)
Definition TrimPrefix (s prefix : gostring) : gostring :=
  if HasPrefix s prefix then skipn (List.length prefix) s else s.

(** [type Product struct]; [Price] is a [float64] literal with two
    decimals, kept as its value in cents (equal literals are equal
    floats). *)
Record Product : Type := mkProduct {
  ID : gostring;
  Name : string;
  Price : Z;
  Description : string
}.

(** A Go [map] with distinct keys, read with [m[k]]. *)
Fixpoint lookup {A : Type} (k : gostring) (m : list (gostring * A)) : option A :=
  match m with
  | [] => None
  | (k', v) :: m' => if gostring_eqb k k' then Some v else lookup k m'
  end.

(** What a handler writes: [http.Error(w, msg, status)], or a value
    encoded by [json.NewEncoder(w).Encode] with the implicit status 200. *)
Inductive Response (A : Type) : Type :=
| HttpError (status : Z) (msg : string)
| WriteJSON (body : A).
Arguments HttpError {A} status msg.
Arguments WriteJSON {A} body.

(** ** product-service *)

Definition Laptop := mkProduct (str "1") "Laptop" 99999 "High-performance laptop".
Definition Mouse := mkProduct (str "2") "Mouse" 2999 "Wireless mouse".
Definition Keyboard := mkProduct (str "3") "Keyboard" 7999 "Mechanical keyboard".
Definition Monitor := mkProduct (str "4") "Monitor" 29999 "4K display".
Definition Headphones :=
  mkProduct (str "5") "Headphones" 14999 "Noise-cancelling headphones".

Definition products : list (gostring * Product) :=
  [(str "1", Laptop); (str "2", Mouse); (str "3", Keyboard);
   (str "4", Monitor); (str "5", Headphones)].

Definition getProductHandler (urlPath : gostring) : Response Product :=
  let path := TrimPrefix urlPath (str "/product/") in
  let id := TrimSpace path in
  match lookup id products with
  | None => HttpError 404 "Product not found"
  | Some product => WriteJSON product
  end.

(** ** recommendations-service *)

Definition recommendations : list (gostring * list Product) :=
  [(str "1", [Keyboard; Mouse]);
   (str "2", [Laptop; Monitor]);
   (str "3", [Laptop; Mouse]);
   (str "4", [Laptop; Headphones]);
   (str "5", [Monitor; Laptop])].

(** [failureMode] is the value of [os.Getenv("SIMULATE_FAILURE")]; the
    30-second sleep before the error is not modelled. *)
Definition getRecommendationsHandler (failureMode urlPath : gostring)
    : Response (list Product) :=
  if gostring_eqb failureMode (str "true") then
    HttpError 408 "Service timeout"
  else
    let path := TrimPrefix urlPath (str "/recommendations/") in
    let id := TrimSpace path in
    let recs := match lookup id recommendations with
                | Some recs => recs
                | None => []
                end in
    WriteJSON recs.

(** ** api-gateway: downstream calls *)

(** The answer to [httpClient.Get(url)]: the request failed (transport
    error or client timeout), or a status code and the result of decoding
    the body as JSON ([None] when [Decode] fails). *)
Inductive Reply (A : Type) : Type :=
| GetFailed
| Responded (status : Z) (decoded : option A).
Arguments GetFailed {A}.
Arguments Responded {A} status decoded.

(** The errors of [getProductDetails] and [getRecommendations]; their text
    is only logged. *)
Inductive GoError : Type :=
| ErrGet
| ErrStatus (status : Z)
| ErrDecode.

(** [getProductDetails(productID)], given the reply to its request. *)
Definition getProductDetails (reply : Reply Product) : GoError + Product :=
  match reply with
  | GetFailed => inl ErrGet
  | Responded status decoded =>
      if negb (status =? 200) then inl (ErrStatus status)
      else match decoded with
           | None => inl ErrDecode
           | Some product => inr product
           end
  end.

(** A Go slice of products: [None] is the nil slice (encoded as [null]),
    [Some l] a non-nil slice. *)
Definition Slice : Type := option (list Product).

(** [getRecommendations(productID)], given the reply to its request; JSON
    [null] decodes to the nil slice. *)
Definition getRecommendations (reply : Reply Slice) : GoError + Slice :=
  match reply with
  | GetFailed => inl ErrGet
  | Responded status decoded =>
      if negb (status =? 200) then inl (ErrStatus status)
      else match decoded with
           | None => inl ErrDecode
           | Some recommendations => inr recommendations
           end
  end.

Definition getFallbackRecommendations : Slice := Some [].

(** ** api-gateway-v2 (with the circuit breaker) *)

Record ProductDetails : Type := mkProductDetails {
  pd_Product : Product;
  pd_Recommendations : Slice;
  pd_Timestamp : string;
  pd_DegradedMode : bool
}.

(** What one request does: the response, the shared breaker afterwards,
    and how many requests went to each downstream service. *)
Record GatewayOut : Type := mkGatewayOut {
  response : Response ProductDetails;
  cb_after : CircuitBreaker;
  product_calls : nat;
  recommendation_calls : nat
}.

(** [productDetailsHandler] of api-gateway-v2.  [productReply] and
    [recsReply] are the replies the two downstream requests would get,
    [timestamp] is [time.Now().Format(time.RFC3339)], [now_check] and
    [now_fail] the clock readings inside [Execute]; [cb] is the global
    [recommendationsCircuitBreaker]. *)
Definition productDetailsHandler (urlPath : gostring) (productReply : Reply Product)
    (recsReply : Reply Slice) (timestamp : string) (now_check now_fail : Z)
    (cb : CircuitBreaker) : GatewayOut :=
  let path := TrimPrefix urlPath (str "/product-details/") in
  let id := TrimSpace path in
  match id with
  | [] => mkGatewayOut (HttpError 400 "Product ID required") cb 0 0
  | _ :: _ =>
      match getProductDetails productReply with
      | inl _ => mkGatewayOut (HttpError 500 "Failed to get product details") cb 1 0
      | inr product =>
          (* the closure passed to [Execute] *)
          let fn_result := match getRecommendations recsReply with
                           | inl err => Some err
                           | inr _ => None
                           end in
          let res := Execute now_check fn_result now_fail cb in
          (* [recommendations = recs], run by the closure on success *)
          let recommendations : Slice :=
            if Nat.eqb (invocations res) 1 then
              match getRecommendations recsReply with
              | inr recs => recs
              | inl _ => None
              end
            else None in
          let '(recommendations, degradedMode) :=
            match err res with
            | Some _ => (getFallbackRecommendations, true)
            | None => (recommendations, false)
            end in
          mkGatewayOut
            (WriteJSON (mkProductDetails product recommendations timestamp degradedMode))
            (breaker res) 1 (invocations res)
      end
  end.

(** ** api-gateway-v1 (no circuit breaker) *)

Record ProductDetailsV1 : Type := mkProductDetailsV1 {
  pd1_Product : Product;
  pd1_Recommendations : Slice;
  pd1_Timestamp : string
}.

Definition productDetailsHandlerV1 (urlPath : gostring) (productReply : Reply Product)
    (recsReply : Reply Slice) (timestamp : string) : Response ProductDetailsV1 * nat * nat :=
  let path := TrimPrefix urlPath (str "/product-details/") in
  let id := TrimSpace path in
  match id with
  | [] => (HttpError 400 "Product ID required", 0%nat, 0%nat)
  | _ :: _ =>
      match getProductDetails productReply with
      | inl _ => (HttpError 500 "Failed to get product details", 1%nat, 0%nat)
      | inr product =>
          match getRecommendations recsReply with
          | inl _ => (HttpError 500 "Failed to get recommendations", 1%nat, 1%nat)
          | inr recommendations =>
              (WriteJSON (mkProductDetailsV1 product recommendations timestamp), 1%nat, 1%nat)
          end
      end
  end.

(** A sequence of requests to api-gateway-v2, all sharing the global
    breaker: each gives the URL path, the two downstream replies, the
    timestamp and the two clock readings of [Execute]. *)
Fixpoint serve_all (cb : CircuitBreaker)
    (reqs : list (gostring * Reply Product * Reply Slice * string * Z * Z))
    : CircuitBreaker :=
  match reqs with
  | [] => cb
  | (urlPath, productReply, recsReply, timestamp, now_check, now_fail) :: reqs =>
      serve_all
        (cb_after (productDetailsHandler urlPath productReply recsReply timestamp
                     now_check now_fail cb))
        reqs
  end.

End Http.

(** * Properties *)

Module CBFacts.
Import CB.

(** ** Frame lemmas *)

Lemma recordFailure_maxFailures (t : Z) (cb : CircuitBreaker) :
  maxFailures (recordFailure t cb) = maxFailures cb.
Proof.
  unfold recordFailure.
  destruct (State_eqb _ _); [reflexivity|].
  destruct (_ >=? _); reflexivity.
Qed.

Lemma recordSuccess_maxFailures (cb : CircuitBreaker) :
  maxFailures (recordSuccess cb) = maxFailures cb.
Proof.
  unfold recordSuccess. simpl.
  destruct (State_eqb _ _); [|reflexivity].
  destruct (_ >=? _); reflexivity.
Qed.

Lemma run_app (cb : CircuitBreaker) (l1 l2 : list Event) :
  run cb (l1 ++ l2) = run (run cb l1) l2.
Proof. unfold run. apply fold_left_app. Qed.

Lemma run_nil (cb : CircuitBreaker) : run cb [] = cb.
Proof. reflexivity. Qed.

Lemma run_cons (cb : CircuitBreaker) (ev : Event) (l : list Event) :
  run cb (ev :: l) = run (record cb ev) l.
Proof. reflexivity. Qed.

(** A failure recorded in [StateClosed] below the threshold only counts. *)
Lemma recordFailure_closed_below (t : Z) (cb : CircuitBreaker) :
  state cb = StateClosed ->
  failureCount cb + 1 < maxFailures cb ->
  maxFailures cb <= max_int64 ->
  recordFailure t cb = set_lastFailureTime (set_failureCount cb (failureCount cb + 1)) t.
Proof.
  intros Hs Hlt Hmax.
  destruct cb as [s fc sc lt mf to hto]; simpl in *; subst s.
  unfold recordFailure, incr64; simpl.
  destruct (Z.eqb_spec fc max_int64); [lia|].
  destruct (Z.geb_spec (fc + 1) mf); [lia|]. reflexivity.
Qed.

(** A run of failures from [StateClosed] that stays below the threshold
    keeps the breaker [StateClosed] and counts every failure. *)
Lemma run_failures_closed (ts : list Z) (cb : CircuitBreaker) :
  state cb = StateClosed ->
  failureCount cb + Z.of_nat (List.length ts) < maxFailures cb ->
  maxFailures cb <= max_int64 ->
  state (run cb (map Failure ts)) = StateClosed /\
  failureCount (run cb (map Failure ts)) = failureCount cb + Z.of_nat (List.length ts) /\
  maxFailures (run cb (map Failure ts)) = maxFailures cb.
Proof.
  revert cb. induction ts as [|t ts IH]; intros cb Hs Hlt Hmax.
  - simpl. repeat split; [assumption | lia].
  - simpl List.length in Hlt. rewrite Nat2Z.inj_succ in Hlt.
    simpl map. rewrite run_cons. simpl record.
    rewrite (recordFailure_closed_below t cb Hs) by lia.
    set (cb1 := set_lastFailureTime (set_failureCount cb (failureCount cb + 1)) t).
    assert (Hs1 : state cb1 = StateClosed) by exact Hs.
    assert (Hf1 : failureCount cb1 = failureCount cb + 1) by reflexivity.
    assert (Hm1 : maxFailures cb1 = maxFailures cb) by reflexivity.
    clearbody cb1.
    destruct (IH cb1) as [H1 [H2 H3]]; [assumption | lia | lia |].
    simpl List.length. rewrite Nat2Z.inj_succ.
    split; [exact H1|]. split; [lia | congruence].
Qed.

Lemma run_failures_prefix_closed (ts : list Z) (n : nat) (cb : CircuitBreaker) :
  state cb = StateClosed ->
  failureCount cb + Z.of_nat (List.length ts) < maxFailures cb ->
  maxFailures cb <= max_int64 ->
  state (run cb (map Failure (firstn n ts))) = StateClosed.
Proof.
  intros Hs Hlt Hmax.
  apply run_failures_closed; try assumption.
  rewrite List.length_firstn. lia.
Qed.

Lemma recordSuccess_closed (cb : CircuitBreaker) :
  state cb = StateClosed -> recordSuccess cb = set_failureCount cb 0.
Proof.
  destruct cb as [s fc sc lt mf to hto]; simpl; intros ->. reflexivity.
Qed.

Lemma execute_phase1_captured (now : Z) (cb : CircuitBreaker) :
  match execute_phase1 now cb with
  | EarlyOpen cb' => cb' = cb /\ state cb = StateOpen
  | Captured cs cb' => cs <> StateOpen /\ cs = state cb'
  end.
Proof.
  destruct cb as [s fc sc lt mf to hto].
  unfold execute_phase1; destruct s; simpl.
  - split; [discriminate | reflexivity].
  - destruct (Since now lt >? to); simpl; split; try reflexivity; discriminate.
  - split; [discriminate | reflexivity].
Qed.

(** ** Claims *)

(** C1: from [StateClosed] with a zero failure count, the first
    [maxFailures - 1] recorded failures keep the breaker [StateClosed] (after
    every prefix of them), and the [maxFailures]-th one trips it to
    [StateOpen], stamps [lastFailureTime] with its instant and resets the
    failure count to 0. *)
Theorem C1_closed_trips_at_threshold (cb : CircuitBreaker) (ts : list Z) (t : Z)
    (Hs : state cb = StateClosed) (H0 : failureCount cb = 0)
    (Hm : 1 <= maxFailures cb <= max_int64)
    (Hlen : Z.of_nat (List.length ts) = maxFailures cb - 1) :
  (forall n, state (run cb (map Failure (firstn n ts))) = StateClosed) /\
  (let cb' := run cb (map Failure (ts ++ [t])) in
   state cb' = StateOpen /\ lastFailureTime cb' = t /\ failureCount cb' = 0).
Proof.
  split.
  - intro n. apply run_failures_prefix_closed; [assumption | lia | lia].
  - rewrite map_app, run_app.
    destruct (run_failures_closed ts cb) as [A1 [A2 A3]]; [assumption | lia | lia |].
    generalize dependent (run cb (map Failure ts)). intros cb1 A1 A2 A3.
    destruct cb1 as [s fc sc lt mf to hto]; simpl in *; subst s.
    unfold run, recordFailure, incr64; simpl.
    destruct (Z.eqb_spec fc max_int64); [lia|].
    destruct (Z.geb_spec (fc + 1) mf); [|lia]. simpl. auto.
Qed.

(** C2: while [StateOpen] and [time.Since(lastFailureTime)] has not
    exceeded [timeout] (in particular when it is below it), [Execute]
    returns the circuit-open error, invokes [fn] zero times and leaves
    every field of the breaker as it was. *)
Theorem C2_open_refuses (E : Type) (now tf : Z) (r : option E) (cb : CircuitBreaker)
    (Hs : state cb = StateOpen)
    (Hc : Since now (lastFailureTime cb) <= timeout cb) :
  Execute now r tf cb = mkResult (Some ErrCircuitOpen) cb 0.
Proof.
  destruct cb as [s fc sc lt mf to hto]; simpl in *; subst s.
  unfold Execute, execute_phase1; simpl.
  destruct (Z.gtb_spec (Since now lt) to); [lia | reflexivity].
Qed.

(** C3: while [StateOpen] with [time.Since(lastFailureTime)] above
    [timeout], the same [Execute] call moves the breaker to
    [StateHalfOpen] with [successCount = 0], invokes [fn] exactly once and
    behaves as [Execute] on that [StateHalfOpen] breaker (whatever the
    clock reads). *)
Theorem C3_open_cooldown_probe (E : Type) (now tf : Z) (r : option E) (cb : CircuitBreaker)
    (Hs : state cb = StateOpen)
    (Hc : Since now (lastFailureTime cb) > timeout cb) :
  let cbh := set_successCount (set_state cb StateHalfOpen) 0 in
  execute_phase1 now cb = Captured StateHalfOpen cbh /\
  invocations (Execute now r tf cb) = 1%nat /\
  Execute now r tf cb =
    match r with
    | Some e => mkResult (Some (ErrOperation e)) (recordFailure tf cbh) 1
    | None => mkResult None (recordSuccess cbh) 1
    end /\
  (forall now', Execute now r tf cb = Execute now' r tf cbh).
Proof.
  destruct cb as [s fc sc lt mf to hto]; simpl in *; subst s.
  unfold Execute, execute_phase1; simpl.
  destruct (Z.gtb_spec (Since now lt) to); [|lia].
  destruct r; simpl; repeat split.
Qed.

(** C4: a probe that fails (the call starts in [StateHalfOpen], or in
    [StateOpen] past the cooldown) returns the operation's error and
    leaves the breaker [StateOpen] with [failureCount = 0] and
    [lastFailureTime] at the failure's instant, whatever [successCount]
    was. *)
Theorem C4_probe_failure_reopens (E : Type) (now tf : Z) (e : E) (cb : CircuitBreaker)
    (Hs : state cb = StateHalfOpen \/
          (state cb = StateOpen /\ Since now (lastFailureTime cb) > timeout cb)) :
  exists cb',
    Execute now (Some e) tf cb = mkResult (Some (ErrOperation e)) cb' 1 /\
    state cb' = StateOpen /\ failureCount cb' = 0 /\ lastFailureTime cb' = tf.
Proof.
  destruct cb as [s fc sc lt mf to hto]; simpl in *.
  unfold Execute, execute_phase1; simpl.
  destruct Hs as [-> | [-> Hc]]; simpl.
  - eexists; repeat split.
  - destruct (Z.gtb_spec (Since now lt) to); [|lia].
    eexists; repeat split.
Qed.

(** C5: a success recorded in [StateHalfOpen] clears [failureCount] and
    counts one more probe success; when the count reaches 2 the breaker
    is [StateClosed] with both counters 0, below 2 it stays
    [StateHalfOpen]. *)
Theorem C5_halfopen_success (cb : CircuitBreaker)
    (Hs : state cb = StateHalfOpen) (Hb : successCount cb < max_int64) :
  let cb' := recordSuccess cb in
  failureCount cb' = 0 /\
  (successCount cb + 1 >= 2 -> state cb' = StateClosed /\ successCount cb' = 0) /\
  (successCount cb + 1 < 2 ->
     state cb' = StateHalfOpen /\ successCount cb' = successCount cb + 1).
Proof.
  destruct cb as [s fc sc lt mf to hto]; simpl in *; subst s.
  unfold recordSuccess, incr64; simpl.
  destruct (Z.eqb_spec sc max_int64); [lia|]. simpl.
  destruct (Z.geb_spec (sc + 1) 2); simpl; repeat split; lia.
Qed.

(** C6 (as amended): [successCount] is reset to 0 on the
    [StateHalfOpen] to [StateClosed] transition and on every entry into
    [StateHalfOpen] from [StateOpen]; the [StateHalfOpen] to [StateOpen]
    transition on a probe failure leaves it unchanged. *)
Theorem C6_successCount_resets (cb : CircuitBreaker) (t : Z)
    (Hs : state cb = StateHalfOpen) :
  (state (recordSuccess cb) = StateClosed -> successCount (recordSuccess cb) = 0) /\
  (state (recordFailure t cb) = StateOpen /\
   successCount (recordFailure t cb) = successCount cb) /\
  (forall now cb0, state cb0 = StateOpen ->
     Since now (lastFailureTime cb0) > timeout cb0 ->
     exists cb1, execute_phase1 now cb0 = Captured StateHalfOpen cb1 /\
                 successCount cb1 = 0).
Proof.
  destruct cb as [s fc sc lt mf to hto]; simpl in *; subst s.
  split; [|split].
  - unfold recordSuccess; simpl.
    destruct (incr64 sc >=? 2); simpl; [reflexivity | discriminate].
  - unfold recordFailure; simpl. split; reflexivity.
  - intros now [s0 fc0 sc0 lt0 mf0 to0 hto0] Hs0 Hc0; simpl in *; subst s0.
    unfold execute_phase1; simpl.
    destruct (Z.gtb_spec (Since now lt0) to0); [|lia].
    eexists; split; reflexivity.
Qed.

(** C6 fails as stated: on a run of [Execute] calls from
    [NewCircuitBreaker] (three failures, then after the cooldown one
    successful probe and one failed probe) the breaker leaves
    [StateHalfOpen] for [StateOpen] with [successCount = 1]. *)
Lemma C6_counterexample :
  let b1 := breaker (Execute 0 (Some tt) 0 NewCircuitBreaker) in
  let b2 := breaker (Execute 1 (Some tt) 1 b1) in
  let b3 := breaker (Execute 2 (Some tt) 2 b2) in
  let b4 := breaker (Execute (E := unit) (2 + 11 * Second) None 0 b3) in
  let b5 := breaker (Execute (3 + 11 * Second) (Some tt) (3 + 11 * Second) b4) in
  state b3 = StateOpen /\ state b4 = StateHalfOpen /\ successCount b4 = 1 /\
  state b5 = StateOpen /\ successCount b5 = 1.
Proof. vm_compute. repeat split. Qed.

(** C7: every recorded success clears [failureCount]; hence from
    [StateClosed] with a zero count, up to [maxFailures - 1] failures, one
    success and up to [maxFailures - 1] failures keep the breaker
    [StateClosed] after every prefix of the run. *)
Theorem C7_success_breaks_failure_run (cb : CircuitBreaker) (ts1 ts2 : list Z)
    (Hs : state cb = StateClosed) (H0 : failureCount cb = 0)
    (Hm : 1 <= maxFailures cb <= max_int64)
    (H1 : Z.of_nat (List.length ts1) <= maxFailures cb - 1)
    (H2 : Z.of_nat (List.length ts2) <= maxFailures cb - 1) :
  (forall cb', failureCount (recordSuccess cb') = 0) /\
  (forall n, state (run cb (firstn n (map Failure ts1 ++ Success :: map Failure ts2)))
             = StateClosed).
Proof.
  split.
  - intros [s fc sc lt mf to hto]. unfold recordSuccess; simpl.
    destruct s; simpl; try reflexivity.
    destruct (incr64 sc >=? 2); reflexivity.
  - intro n. rewrite firstn_app, run_app, firstn_map.
    rewrite length_map.
    destruct (n - List.length ts1)%nat as [|k] eqn:Hk.
    + simpl firstn. rewrite run_nil.
      apply run_failures_prefix_closed; [assumption | lia | lia].
    + rewrite (firstn_all2 (n := n)) by lia.
      destruct (run_failures_closed ts1 cb) as [A1 [A2 A3]]; [assumption | lia | lia |].
      generalize dependent (run cb (map Failure ts1)). intros cb1 A1 A2 A3.
      simpl firstn. rewrite run_cons. simpl record.
      rewrite (recordSuccess_closed cb1 A1), firstn_map.
      apply run_failures_prefix_closed; simpl; [assumption | lia | lia].
Qed.

(** C8: when [fn] is invoked and fails with [e], [Execute] records the
    failure on the breaker it captured and returns [e] itself; an
    operation error is only ever returned after invoking [fn], and the
    circuit-open error is returned exactly when [fn] is not invoked. *)
Theorem C8_operation_error_propagated (E : Type) (now tf : Z) (r : option E)
    (cb : CircuitBreaker) :
  let res := Execute now r tf cb in
  (forall e, r = Some e -> invocations res = 1%nat ->
     err res = Some (ErrOperation e) /\
     exists cs cb1, execute_phase1 now cb = Captured cs cb1 /\
                    breaker res = recordFailure tf cb1) /\
  (forall e, err res = Some (ErrOperation e) -> r = Some e /\ invocations res = 1%nat) /\
  (err res = Some ErrCircuitOpen <-> invocations res = 0%nat).
Proof.
  unfold Execute.
  destruct (execute_phase1 now cb) as [cb1 | cs cb1] eqn:Hp;
    [|destruct (State_eqb cs StateOpen); [|destruct r as [e0|]]]; simpl;
    (split; [intros x Hx Hi | split; [intros x Hx | split; intros Hc]]);
    try discriminate; try reflexivity.
  - inversion Hx; subst. split; [reflexivity|]. exists cs, cb1. split; reflexivity.
  - inversion Hx; subst. split; reflexivity.
Qed.

(** C9: [GetState] returns the name of the current state and leaves the
    breaker (state, both counters, [lastFailureTime]) unchanged; the name
    determines the state. *)
Theorem C9_GetState_no_effect (cb : CircuitBreaker) :
  GetState cb = (State_String (state cb), cb) /\
  (forall s, State_String s = fst (GetState cb) -> s = state cb).
Proof.
  split; [reflexivity|].
  intros s; destruct s, cb as [[] ? ? ? ? ? ?]; simpl; intro H;
    first [reflexivity | discriminate].
Qed.

(** C10: the state captured at the end of the first critical section of
    [Execute] is never [StateOpen] (an open breaker either returned early,
    unchanged, or moved to [StateHalfOpen]), so the second circuit-open
    check never fires; [fn] is invoked (once) exactly when a
    [StateClosed] or [StateHalfOpen] state was captured. *)
Theorem C10_captured_state_not_open (E : Type) (now : Z) (cb : CircuitBreaker) :
  (match execute_phase1 now cb with
   | EarlyOpen cb' => cb' = cb /\ state cb = StateOpen
   | Captured cs cb' => cs <> StateOpen /\ cs = state cb'
   end) /\
  (forall (r : option E) tf,
     (invocations (Execute now r tf cb) = 1%nat <->
      exists cs cb', execute_phase1 now cb = Captured cs cb' /\
                     (cs = StateClosed \/ cs = StateHalfOpen)) /\
     (invocations (Execute now r tf cb) = 0%nat \/
      invocations (Execute now r tf cb) = 1%nat)).
Proof.
  pose proof (execute_phase1_captured now cb) as Hp.
  split; [exact Hp|].
  intros r tf. unfold Execute.
  destruct (execute_phase1 now cb) as [cb1 | cs cb1]; simpl.
  - split; [|left; reflexivity].
    split; [discriminate | intros [cs [cb' [H _]]]; discriminate].
  - destruct Hp as [Hn _].
    destruct cs; [| contradiction |]; simpl; destruct r; simpl;
      (split; [|right; reflexivity]); split; try reflexivity; intros _; eauto.
Qed.

(** ** Witnesses: the claims' hypotheses hold on concrete breakers *)

Lemma C1_closed_trips_at_threshold_witness :
  (forall n, state (run NewCircuitBreaker (map Failure (firstn n [10; 20]))) = StateClosed) /\
  (let cb' := run NewCircuitBreaker (map Failure ([10; 20] ++ [30])) in
   state cb' = StateOpen /\ lastFailureTime cb' = 30 /\ failureCount cb' = 0).
Proof.
  apply (C1_closed_trips_at_threshold NewCircuitBreaker [10; 20] 30);
    [reflexivity | reflexivity | split; vm_compute; discriminate | reflexivity].
Defined.

Lemma C2_open_refuses_witness :
  Execute (5 * Second) (Some tt) (5 * Second)
    (mkCB StateOpen 0 0 0 3 (10 * Second) (5 * Second)) =
  mkResult (Some ErrCircuitOpen) (mkCB StateOpen 0 0 0 3 (10 * Second) (5 * Second)) 0.
Proof.
  apply (C2_open_refuses unit (5 * Second) (5 * Second) (Some tt)
           (mkCB StateOpen 0 0 0 3 (10 * Second) (5 * Second)));
    [reflexivity | vm_compute; discriminate].
Defined.

Lemma C3_open_cooldown_probe_witness :
  let cb := mkCB StateOpen 0 0 0 3 (10 * Second) (5 * Second) in
  let cbh := set_successCount (set_state cb StateHalfOpen) 0 in
  execute_phase1 (11 * Second) cb = Captured StateHalfOpen cbh /\
  invocations (Execute (11 * Second) (@None unit) 0 cb) = 1%nat /\
  Execute (11 * Second) (@None unit) 0 cb = mkResult None (recordSuccess cbh) 1 /\
  (forall now', Execute (11 * Second) (@None unit) 0 cb = Execute now' None 0 cbh).
Proof.
  apply (C3_open_cooldown_probe unit (11 * Second) 0 None
           (mkCB StateOpen 0 0 0 3 (10 * Second) (5 * Second)));
    [reflexivity | vm_compute; reflexivity].
Defined.

Lemma C4_probe_failure_reopens_witness :
  exists cb',
    Execute 0 (Some tt) 7 (mkCB StateHalfOpen 0 1 0 3 (10 * Second) (5 * Second)) =
      mkResult (Some (ErrOperation tt)) cb' 1 /\
    state cb' = StateOpen /\ failureCount cb' = 0 /\ lastFailureTime cb' = 7.
Proof.
  apply (C4_probe_failure_reopens unit 0 7 tt
           (mkCB StateHalfOpen 0 1 0 3 (10 * Second) (5 * Second))).
  left; reflexivity.
Defined.

Lemma C5_halfopen_success_witness :
  let cb := mkCB StateHalfOpen 0 1 0 3 (10 * Second) (5 * Second) in
  let cb' := recordSuccess cb in
  failureCount cb' = 0 /\
  (successCount cb + 1 >= 2 -> state cb' = StateClosed /\ successCount cb' = 0) /\
  (successCount cb + 1 < 2 ->
     state cb' = StateHalfOpen /\ successCount cb' = successCount cb + 1).
Proof.
  apply (C5_halfopen_success (mkCB StateHalfOpen 0 1 0 3 (10 * Second) (5 * Second)));
    [reflexivity | vm_compute; reflexivity].
Defined.

Lemma C6_successCount_resets_witness :
  let cb := mkCB StateHalfOpen 0 1 0 3 (10 * Second) (5 * Second) in
  (state (recordSuccess cb) = StateClosed -> successCount (recordSuccess cb) = 0) /\
  (state (recordFailure 9 cb) = StateOpen /\
   successCount (recordFailure 9 cb) = successCount cb) /\
  (forall now cb0, state cb0 = StateOpen ->
     Since now (lastFailureTime cb0) > timeout cb0 ->
     exists cb1, execute_phase1 now cb0 = Captured StateHalfOpen cb1 /\
                 successCount cb1 = 0).
Proof.
  apply (C6_successCount_resets (mkCB StateHalfOpen 0 1 0 3 (10 * Second) (5 * Second)) 9).
  reflexivity.
Defined.

Lemma C7_success_breaks_failure_run_witness :
  (forall cb', failureCount (recordSuccess cb') = 0) /\
  (forall n, state (run NewCircuitBreaker
                      (firstn n (map Failure [1; 2] ++ Success :: map Failure [3; 4])))
             = StateClosed).
Proof.
  apply (C7_success_breaks_failure_run NewCircuitBreaker [1; 2] [3; 4]);
    [reflexivity | reflexivity | split; vm_compute; discriminate
    | vm_compute; discriminate | vm_compute; discriminate].
Defined.

End CBFacts.

(** * Further properties of the breaker *)

Module CBMore.
Import CB.

Ltac zcase :=
  repeat match goal with
  | |- context [?a =? ?b] => destruct (Z.eqb_spec a b)
  | |- context [?a >=? ?b] => destruct (Z.geb_spec a b)
  | |- context [?a >? ?b] => destruct (Z.gtb_spec a b)
  end.

Ltac unfold_execute :=
  unfold Execute, execute_phase1, recordFailure, recordSuccess, incr64; simpl.

Lemma Execute_preserves_inv (E : Type) (now tf : Z) (r : option E) (cb : CircuitBreaker) :
  breaker_inv cb -> breaker_inv (breaker (Execute now r tf cb)).
Proof.
  destruct cb as [s fc sc lt mf to hto].
  unfold breaker_inv; simpl. intros [Hm [Hf [Hnc [Hs Hc]]]].
  unfold_execute.
  destruct s; simpl; zcase; destruct r; simpl; zcase; simpl;
    repeat split; try lia; try discriminate;
    try (intros; first [lia | discriminate | congruence | apply Hc; reflexivity]);
    try (specialize (Hnc ltac:(discriminate)); lia);
    unfold max_int64, min_int64 in *; lia.
Qed.

(** The breaker made by [NewCircuitBreaker] keeps, through any sequence
    of [Execute] calls, [1 <= maxFailures], a failure count in
    [0 .. maxFailures - 1] that is 0 outside [StateClosed], and a success
    count in [0 .. 1] that is 0 in [StateClosed]. *)
Theorem execute_all_inv (E : Type) (calls : list (Z * option E * Z)) :
  breaker_inv (execute_all NewCircuitBreaker calls).
Proof.
  assert (H0 : breaker_inv NewCircuitBreaker).
  { unfold breaker_inv; simpl. repeat split; try discriminate; vm_compute; discriminate. }
  revert H0. generalize NewCircuitBreaker.
  induction calls as [|[[n r] t] calls IH]; intros cb Hcb; simpl.
  - exact Hcb.
  - apply IH, Execute_preserves_inv, Hcb.
Qed.

(** [Execute] never changes the configuration fields. *)
Theorem Execute_keeps_config (E : Type) (now tf : Z) (r : option E) (cb : CircuitBreaker) :
  let cb' := breaker (Execute now r tf cb) in
  maxFailures cb' = maxFailures cb /\ timeout cb' = timeout cb /\
  halfOpenTimeout cb' = halfOpenTimeout cb.
Proof.
  destruct cb as [s fc sc lt mf to hto]. unfold_execute.
  destruct s; simpl; zcase; destruct r; simpl; zcase; simpl; repeat split.
Qed.

(** One [Execute] call never moves [StateClosed] to [StateHalfOpen] nor
    [StateOpen] to [StateClosed]; it enters [StateOpen] from another state
    only when [fn] failed, and enters [StateClosed] from another state
    only when [fn] succeeded. *)
Theorem Execute_transitions (E : Type) (now tf : Z) (r : option E) (cb : CircuitBreaker) :
  let s' := state (breaker (Execute now r tf cb)) in
  (state cb = StateClosed -> s' <> StateHalfOpen) /\
  (state cb = StateOpen -> s' <> StateClosed) /\
  (state cb <> StateOpen -> s' = StateOpen -> exists e, r = Some e) /\
  (state cb <> StateClosed -> s' = StateClosed -> r = None).
Proof.
  destruct cb as [s fc sc lt mf to hto]. unfold_execute.
  destruct s; simpl; zcase; destruct r; simpl; zcase; simpl;
    repeat split; try discriminate; intros; try congruence; eauto.
Qed.

(** [lastFailureTime] changes only when [fn] is invoked and fails, and it
    then becomes the instant of that failure. *)
Theorem Execute_lastFailureTime (E : Type) (now tf : Z) (r : option E) (cb : CircuitBreaker) :
  let res := Execute now r tf cb in
  lastFailureTime (breaker res) =
    match r, invocations res with
    | Some _, 1%nat => tf
    | _, _ => lastFailureTime cb
    end.
Proof.
  destruct cb as [s fc sc lt mf to hto]. unfold_execute.
  destruct s; simpl; zcase; destruct r; simpl; zcase; reflexivity.
Qed.

(** [halfOpenTimeout] is never read: breakers differing only in it give
    the same error, the same number of invocations, and results differing
    only in it. *)
Theorem Execute_ignores_halfOpenTimeout (E : Type) (now tf : Z) (r : option E)
    (cb : CircuitBreaker) (d : Z) :
  let res := Execute now r tf cb in
  let res' := Execute now r tf (set_halfOpenTimeout cb d) in
  err res' = err res /\ invocations res' = invocations res /\
  breaker res' = set_halfOpenTimeout (breaker res) d.
Proof.
  destruct cb as [s fc sc lt mf to hto]. unfold set_halfOpenTimeout. unfold_execute.
  destruct s, r; cbn;
    repeat (match goal with |- context [if ?b then _ else _] => destruct b end; cbn);
    repeat split.
Qed.

(** Recovery: an open breaker whose cooldown has elapsed is [StateClosed],
    with both counters 0, after two successful calls, each of which
    invoked [fn] once. *)
Theorem Execute_two_probes_close (E : Type) (now1 now2 tf1 tf2 : Z) (cb : CircuitBreaker)
    (Hs : state cb = StateOpen)
    (Hc : Since now1 (lastFailureTime cb) > timeout cb) :
  let res1 := Execute (E := E) now1 None tf1 cb in
  let res2 := Execute (E := E) now2 None tf2 (breaker res1) in
  invocations res1 = 1%nat /\ invocations res2 = 1%nat /\
  state (breaker res1) = StateHalfOpen /\ successCount (breaker res1) = 1 /\
  state (breaker res2) = StateClosed /\
  failureCount (breaker res2) = 0 /\ successCount (breaker res2) = 0.
Proof.
  destruct cb as [s fc sc lt mf to hto]; simpl in *; subst s.
  unfold_execute. destruct (Z.gtb_spec (Since now1 lt) to) as [H|H]; [|lia].
  vm_compute. repeat split.
Qed.

Lemma Execute_two_probes_close_witness :
  let cb := mkCB StateOpen 0 1 0 3 (10 * Second) (5 * Second) in
  let res1 := Execute (E := unit) (11 * Second) None 0 cb in
  let res2 := Execute (E := unit) (12 * Second) None 0 (breaker res1) in
  invocations res1 = 1%nat /\ invocations res2 = 1%nat /\
  state (breaker res1) = StateHalfOpen /\ successCount (breaker res1) = 1 /\
  state (breaker res2) = StateClosed /\
  failureCount (breaker res2) = 0 /\ successCount (breaker res2) = 0.
Proof.
  apply (Execute_two_probes_close unit (11 * Second) (12 * Second) 0 0
           (mkCB StateOpen 0 1 0 3 (10 * Second) (5 * Second)));
    [reflexivity | vm_compute; reflexivity].
Defined.

End CBMore.

(** * Properties of the handlers *)

Module HttpFacts.
Import CB Http.
Local Open Scope bool_scope.

(** ** Strings *)

Lemma TrimLeftFunc_app (f : Z -> bool) (l1 l2 : gostring) :
  TrimLeftFunc f (l1 ++ l2) =
    if forallb f l1 then TrimLeftFunc f l2 else TrimLeftFunc f l1 ++ l2.
Proof.
  induction l1 as [|r l1 IH]; simpl; [reflexivity|].
  destruct (f r); simpl; [exact IH | reflexivity].
Qed.

Lemma forallb_TrimLeftFunc (f : Z -> bool) (l : gostring) :
  forallb f (TrimLeftFunc f l) = forallb f l.
Proof.
  induction l as [|r l IH]; simpl; [reflexivity|].
  destruct (f r) eqn:Hr; simpl; [exact IH | rewrite Hr; reflexivity].
Qed.

Lemma TrimLeftFunc_nil (f : Z -> bool) (l : gostring) :
  TrimLeftFunc f l = [] <-> forallb f l = true.
Proof.
  induction l as [|r l IH]; simpl; [tauto|].
  destruct (f r); simpl; [exact IH | split; discriminate].
Qed.

Lemma forallb_rev (f : Z -> bool) (l : gostring) :
  forallb f (rev l) = forallb f l.
Proof.
  induction l as [|r l IH]; simpl; [reflexivity|].
  rewrite forallb_app, IH; simpl. rewrite andb_true_r, andb_comm. reflexivity.
Qed.

Lemma TrimSpace_nil (l : gostring) :
  TrimSpace l = [] <-> forallb IsSpace l = true.
Proof.
  unfold TrimSpace, TrimRightFunc.
  split.
  - intro H. apply (f_equal (@rev Z)) in H. rewrite rev_involutive in H.
    apply TrimLeftFunc_nil in H. rewrite forallb_rev, forallb_TrimLeftFunc in H.
    exact H.
  - intro H. apply TrimLeftFunc_nil in H. rewrite H. reflexivity.
Qed.

(** Code points of [unicode.IsSpace] around a string do not change what
    [strings.TrimSpace] returns. *)
Lemma TrimSpace_surround (ws1 s ws2 : gostring) :
  forallb IsSpace ws1 = true -> forallb IsSpace ws2 = true ->
  TrimSpace (ws1 ++ s ++ ws2) = TrimSpace s.
Proof.
  intros H1 H2. unfold TrimSpace, TrimRightFunc.
  rewrite TrimLeftFunc_app, H1, TrimLeftFunc_app.
  destruct (forallb IsSpace s) eqn:Hs.
  - apply TrimLeftFunc_nil in H2, Hs. rewrite H2, Hs. reflexivity.
  - rewrite rev_app_distr, TrimLeftFunc_app, forallb_rev, H2. reflexivity.
Qed.

Lemma TrimPrefix_app (prefix s : gostring) :
  TrimPrefix (prefix ++ s) prefix = s.
Proof.
  unfold TrimPrefix.
  assert (H : HasPrefix (prefix ++ s) prefix = true).
  { induction prefix as [|p prefix IH]; simpl; [reflexivity|].
    rewrite Z.eqb_refl, IH. reflexivity. }
  rewrite H. induction prefix as [|p prefix IH]; simpl; [reflexivity|].
  apply IH. simpl in H. apply andb_prop in H. apply H.
Qed.

Lemma gostring_eqb_true (a b : gostring) : gostring_eqb a b = true -> a = b.
Proof. unfold gostring_eqb. destruct (list_eq_dec Z.eq_dec a b); congruence. Qed.

Lemma lookup_In {A : Type} (k : gostring) (m : list (gostring * A)) (v : A) :
  lookup k m = Some v -> In (k, v) m.
Proof.
  induction m as [|[k' v'] m IH]; simpl; [discriminate|].
  destruct (gostring_eqb k k') eqn:He.
  - intro H. inversion H; subst. apply gostring_eqb_true in He. subst. left. reflexivity.
  - intro H. right. apply IH, H.
Qed.

(** ** product-service and recommendations-service *)

(** [getProductHandler] answers either 404 or the product whose [ID] is
    the requested id (the path after [/product/], trimmed). *)
Theorem getProductHandler_sound (urlPath : gostring) :
  let id := TrimSpace (TrimPrefix urlPath (str "/product/")) in
  (forall p, getProductHandler urlPath = WriteJSON p -> ID p = id) /\
  (forall status msg, getProductHandler urlPath = HttpError status msg ->
     status = 404 /\ lookup id products = None).
Proof.
  simpl. unfold getProductHandler.
  destruct (lookup _ products) as [p|] eqn:Hl; split; intros; try discriminate.
  - match goal with H : WriteJSON _ = WriteJSON _ |- _ => inversion H; subst end.
    apply lookup_In in Hl.
    simpl in Hl. repeat destruct Hl as [Hl | Hl]; try contradiction;
      inversion Hl; subst; reflexivity.
  - match goal with H : HttpError _ _ = HttpError _ _ |- _ => inversion H; subst end.
    split; [reflexivity | exact Hl].
Qed.

Lemma recommendations_consistent :
  Forall (fun '(k, recs) =>
            Forall (fun r => getProductHandler (str "/product/" ++ ID r) = WriteJSON r /\ ID r <> k)
                   recs)
         recommendations.
Proof.
  unfold recommendations.
  repeat constructor;
    first [ unfold getProductHandler; rewrite TrimPrefix_app; reflexivity | discriminate ].
Qed.

(** [getRecommendationsHandler] answers 408 for every path in failure
    mode; otherwise it always answers a list (empty for an unknown id) of
    products that product-service serves unchanged under their [ID], none
    of which is the requested product. *)
Theorem getRecommendationsHandler_sound (failureMode urlPath : gostring) :
  let id := TrimSpace (TrimPrefix urlPath (str "/recommendations/")) in
  (failureMode = str "true" ->
     getRecommendationsHandler failureMode urlPath = HttpError 408 "Service timeout") /\
  (failureMode <> str "true" ->
     exists recs, getRecommendationsHandler failureMode urlPath = WriteJSON recs /\
       (lookup id recommendations = None -> recs = []) /\
       (forall r, In r recs ->
          getProductHandler (str "/product/" ++ ID r) = WriteJSON r /\ ID r <> id)).
Proof.
  cbv zeta. unfold getRecommendationsHandler. split.
  - intros ->. reflexivity.
  - intros Hf. unfold gostring_eqb at 1.
    destruct (list_eq_dec Z.eq_dec failureMode (str "true")); [contradiction|].
    eexists; split; [reflexivity|].
    destruct (lookup _ recommendations) as [recs|] eqn:Hl; split; intros; try discriminate.
    + apply lookup_In in Hl.
      pose proof recommendations_consistent as Hc.
      rewrite Forall_forall in Hc. specialize (Hc _ Hl). simpl in Hc.
      rewrite Forall_forall in Hc. apply Hc. assumption.
    + reflexivity.
    + contradiction.
Qed.

(** ** api-gateway *)

Lemma TrimSpace_cons (l : gostring) :
  forallb IsSpace l = false -> exists c rest, TrimSpace l = c :: rest.
Proof.
  intro H. destruct (TrimSpace l) as [|c rest] eqn:Ht.
  - apply TrimSpace_nil in Ht. congruence.
  - eauto.
Qed.

Lemma getRecommendations_inr (rr : Reply Slice) (recs : Slice) :
  getRecommendations rr = inr recs -> rr = Responded 200 (Some recs).
Proof.
  destruct rr as [|status [d|]]; simpl; try discriminate.
  - destruct (Z.eqb_spec status 200); simpl; [|discriminate].
    intro H; inversion H; subst; reflexivity.
  - destruct (status =? 200); discriminate.
Qed.

(** Facts on one [Execute] call that the handler relies on. *)
Lemma Execute_cases (E : Type) (now tf : Z) (r : option E) (cb : CircuitBreaker) :
  let res := Execute now r tf cb in
  (invocations res = 0%nat /\ err res = Some ErrCircuitOpen) \/
  (invocations res = 1%nat /\
   err res = match r with Some e => Some (ErrOperation e) | None => None end).
Proof.
  pose proof (CBFacts.execute_phase1_captured now cb) as Hp.
  unfold Execute. destruct (execute_phase1 now cb) as [cb1 | cs cb1].
  - left; split; reflexivity.
  - destruct Hp as [Hn _]. destruct cs; [| contradiction |]; simpl;
      destruct r; right; split; reflexivity.
Qed.

(** api-gateway-v2 answers 400 exactly when the path after
    [/product-details/] is blank (only [unicode.IsSpace] code points); it
    then makes no downstream request and leaves the breaker as it was. *)
Theorem productDetailsHandler_blank_id (urlPath : gostring) (pr : Reply Product)
    (rr : Reply Slice) (ts : string) (n1 n2 : Z) (cb : CircuitBreaker) :
  let rest := TrimPrefix urlPath (str "/product-details/") in
  let out := productDetailsHandler urlPath pr rr ts n1 n2 cb in
  (forallb IsSpace rest = true ->
     out = mkGatewayOut (HttpError 400 "Product ID required") cb 0 0) /\
  (forall msg, response out = HttpError 400 msg -> forallb IsSpace rest = true).
Proof.
  cbv zeta. unfold productDetailsHandler. split.
  - intro H. apply TrimSpace_nil in H. rewrite H. reflexivity.
  - intros msg. destruct (forallb IsSpace _) eqn:Hb; [reflexivity|].
    destruct (TrimSpace_cons _ Hb) as [c [rest' ->]].
    destruct (getProductDetails pr); [simpl; congruence|].
    destruct (err _); simpl; discriminate.
Qed.

(** When the product request fails (transport error, status other than
    200, or undecodable body), api-gateway-v2 answers 500, never asks for
    recommendations and leaves the breaker as it was. *)
Theorem productDetailsHandler_product_failure (urlPath : gostring) (pr : Reply Product)
    (rr : Reply Slice) (ts : string) (n1 n2 : Z) (cb : CircuitBreaker) (e : GoError)
    (Hid : forallb IsSpace (TrimPrefix urlPath (str "/product-details/")) = false)
    (Hp : getProductDetails pr = inl e) :
  productDetailsHandler urlPath pr rr ts n1 n2 cb =
    mkGatewayOut (HttpError 500 "Failed to get product details") cb 1 0.
Proof.
  unfold productDetailsHandler.
  destruct (TrimSpace_cons _ Hid) as [c [rest' ->]]. rewrite Hp. reflexivity.
Qed.

(** Once the product is fetched, api-gateway-v2 always answers with it:
    the recommendations go through [Execute] on the shared breaker, the
    answer is degraded exactly when the breaker refused or the
    recommendations request failed, a degraded answer carries the
    fallback empty list, and a normal one the list the recommendations
    service sent with status 200. *)
Theorem productDetailsHandler_product_ok (urlPath : gostring) (pr : Reply Product)
    (rr : Reply Slice) (ts : string) (n1 n2 : Z) (cb : CircuitBreaker) (p : Product)
    (Hid : forallb IsSpace (TrimPrefix urlPath (str "/product-details/")) = false)
    (Hp : getProductDetails pr = inr p) :
  let out := productDetailsHandler urlPath pr rr ts n1 n2 cb in
  let res := Execute n1 (match getRecommendations rr with
                         | inl e => Some e | inr _ => None end) n2 cb in
  exists pd, response out = WriteJSON pd /\
    pd_Product pd = p /\ pd_Timestamp pd = ts /\
    cb_after out = breaker res /\ product_calls out = 1%nat /\
    recommendation_calls out = invocations res /\
    (pd_DegradedMode pd = true <->
       invocations res = 0%nat \/ exists e, getRecommendations rr = inl e) /\
    (pd_DegradedMode pd = true -> pd_Recommendations pd = Some []) /\
    (pd_DegradedMode pd = false ->
       exists recs, rr = Responded 200 (Some recs) /\ pd_Recommendations pd = recs).
Proof.
  cbv zeta. unfold productDetailsHandler.
  destruct (TrimSpace_cons _ Hid) as [c [rest' ->]]. rewrite Hp.
  cbv zeta.
  destruct (getRecommendations rr) as [e|recs] eqn:Hr.
  - destruct (Execute_cases GoError n1 n2 (Some e) cb) as [[Hi He] | [Hi He]];
      cbv zeta in Hi, He; rewrite He; eexists; (split; [reflexivity|]); cbn.
    all: repeat split; intros; try reflexivity; try discriminate; eauto.
  - destruct (Execute_cases GoError n1 n2 None cb) as [[Hi He] | [Hi He]];
      cbv zeta in Hi, He; rewrite He; eexists; (split; [reflexivity|]); rewrite ?Hi; cbn.
    + repeat split; intros; try reflexivity; try discriminate; eauto.
    + repeat split; intros; try reflexivity; try discriminate.
      * destruct H as [H | [e' H]]; discriminate.
      * exists recs. split; [apply getRecommendations_inr, Hr | reflexivity].
Qed.


(** While the shared breaker is open and its cooldown has not elapsed,
    api-gateway-v2 answers the fetched product with the fallback empty
    list in degraded mode, without any request to the recommendations
    service and without touching the breaker. *)
Theorem productDetailsHandler_fail_fast (urlPath : gostring) (pr : Reply Product)
    (rr : Reply Slice) (ts : string) (n1 n2 : Z) (cb : CircuitBreaker) (p : Product)
    (Hid : forallb IsSpace (TrimPrefix urlPath (str "/product-details/")) = false)
    (Hp : getProductDetails pr = inr p)
    (Hs : state cb = StateOpen)
    (Hc : Since n1 (lastFailureTime cb) <= timeout cb) :
  productDetailsHandler urlPath pr rr ts n1 n2 cb =
    mkGatewayOut (WriteJSON (mkProductDetails p (Some []) ts true)) cb 1 0.
Proof.
  unfold productDetailsHandler.
  destruct (TrimSpace_cons _ Hid) as [c [rest' ->]]. rewrite Hp.
  destruct cb as [s fc sc lt mf to hto]; simpl in Hs, Hc; subst s.
  unfold Execute, execute_phase1; simpl.
  destruct (Z.gtb_spec (Since n1 lt) to); [lia | reflexivity].
Qed.

(** When the recommendations request fails after the product was
    fetched, api-gateway-v1 fails the whole request with 500, while
    api-gateway-v2 answers the product in degraded mode with the empty
    fallback list, whatever the state of its breaker. *)
Theorem recommendations_failure_v1_v2 (urlPath : gostring) (pr : Reply Product)
    (rr : Reply Slice) (ts : string) (n1 n2 : Z) (cb : CircuitBreaker) (p : Product)
    (e : GoError)
    (Hid : forallb IsSpace (TrimPrefix urlPath (str "/product-details/")) = false)
    (Hp : getProductDetails pr = inr p)
    (Hr : getRecommendations rr = inl e) :
  productDetailsHandlerV1 urlPath pr rr ts =
    (HttpError 500 "Failed to get recommendations", 1%nat, 1%nat) /\
  response (productDetailsHandler urlPath pr rr ts n1 n2 cb) =
    WriteJSON (mkProductDetails p (Some []) ts true).
Proof.
  unfold productDetailsHandlerV1, productDetailsHandler.
  destruct (TrimSpace_cons _ Hid) as [c [rest' ->]]. rewrite Hp, Hr.
  split; [reflexivity|].
  destruct (Execute_cases GoError n1 n2 (Some e) cb) as [[Hi He] | [Hi He]];
    cbv zeta in Hi, He; cbn; rewrite He; reflexivity.
Qed.


(** Through any sequence of requests to api-gateway-v2, the global breaker
    made by [NewCircuitBreaker] keeps [breaker_inv]. *)
Theorem serve_all_inv (reqs : list (gostring * Reply Product * Reply Slice * string * Z * Z)) :
  breaker_inv (serve_all NewCircuitBreaker reqs).
Proof.
  assert (H0 : breaker_inv NewCircuitBreaker).
  { unfold breaker_inv; simpl. repeat split; try discriminate; vm_compute; discriminate. }
  revert H0. generalize NewCircuitBreaker.
  induction reqs as [|[[[[[u pr] rr] ts] n1] n2] reqs IH]; intros cb Hcb; simpl; [exact Hcb|].
  apply IH. unfold productDetailsHandler.
  destruct (TrimSpace _) as [|c rest]; [exact Hcb|].
  destruct (getProductDetails pr); [exact Hcb|].
  cbv zeta. destruct (err _); apply CBMore.Execute_preserves_inv, Hcb.
Qed.

(** Code points of [unicode.IsSpace] around the id in the URL path change
    the answer of none of the three handlers. *)
Theorem handlers_ignore_surrounding_space (ws1 id ws2 : gostring)
    (H1 : forallb IsSpace ws1 = true) (H2 : forallb IsSpace ws2 = true)
    (failureMode : gostring) (pr : Reply Product) (rr : Reply Slice) (ts : string)
    (n1 n2 : Z) (cb : CircuitBreaker) :
  getProductHandler (str "/product/" ++ ws1 ++ id ++ ws2) =
    getProductHandler (str "/product/" ++ id) /\
  getRecommendationsHandler failureMode (str "/recommendations/" ++ ws1 ++ id ++ ws2) =
    getRecommendationsHandler failureMode (str "/recommendations/" ++ id) /\
  productDetailsHandler (str "/product-details/" ++ ws1 ++ id ++ ws2) pr rr ts n1 n2 cb =
    productDetailsHandler (str "/product-details/" ++ id) pr rr ts n1 n2 cb.
Proof.
  unfold getProductHandler, getRecommendationsHandler, productDetailsHandler.
  rewrite !TrimPrefix_app, !(TrimSpace_surround ws1 id ws2 H1 H2).
  repeat split.
Qed.

(** ** Witnesses *)

Lemma productDetailsHandler_product_failure_witness :
  productDetailsHandler (str "/product-details/1") (Responded 404 None) GetFailed "t" 0 0
    NewCircuitBreaker =
  mkGatewayOut (HttpError 500 "Failed to get product details") NewCircuitBreaker 1 0.
Proof.
  apply (productDetailsHandler_product_failure (str "/product-details/1") (Responded 404 None)
           GetFailed "t" 0 0 NewCircuitBreaker (ErrStatus 404));
    reflexivity.
Defined.

Lemma productDetailsHandler_product_ok_witness :
  let out := productDetailsHandler (str "/product-details/1") (Responded 200 (Some Laptop))
               (Responded 200 (Some (Some [Keyboard; Mouse]))) "t" 0 0 NewCircuitBreaker in
  let res := Execute 0 (match getRecommendations (Responded 200 (Some (Some [Keyboard; Mouse])))
                        with inl e => Some e | inr _ => None end) 0 NewCircuitBreaker in
  exists pd, response out = WriteJSON pd /\
    pd_Product pd = Laptop /\ pd_Timestamp pd = "t"%string /\
    cb_after out = breaker res /\ product_calls out = 1%nat /\
    recommendation_calls out = invocations res /\
    (pd_DegradedMode pd = true <->
       invocations res = 0%nat \/
       exists e, getRecommendations (Responded 200 (Some (Some [Keyboard; Mouse]))) = inl e) /\
    (pd_DegradedMode pd = true -> pd_Recommendations pd = Some []) /\
    (pd_DegradedMode pd = false ->
       exists recs, Responded 200 (Some (Some [Keyboard; Mouse])) = Responded 200 (Some recs) /\
                    pd_Recommendations pd = recs).
Proof.
  apply (productDetailsHandler_product_ok (str "/product-details/1") (Responded 200 (Some Laptop))
           (Responded 200 (Some (Some [Keyboard; Mouse]))) "t" 0 0 NewCircuitBreaker Laptop);
    reflexivity.
Defined.

Lemma productDetailsHandler_fail_fast_witness :
  productDetailsHandler (str "/product-details/2") (Responded 200 (Some Mouse)) GetFailed "t"
    (5 * Second) 0 (mkCB StateOpen 0 0 0 3 (10 * Second) (5 * Second)) =
  mkGatewayOut (WriteJSON (mkProductDetails Mouse (Some []) "t" true))
    (mkCB StateOpen 0 0 0 3 (10 * Second) (5 * Second)) 1 0.
Proof.
  apply (productDetailsHandler_fail_fast (str "/product-details/2") (Responded 200 (Some Mouse))
           GetFailed "t" (5 * Second) 0 (mkCB StateOpen 0 0 0 3 (10 * Second) (5 * Second)) Mouse);
    [reflexivity | reflexivity | reflexivity | vm_compute; discriminate].
Defined.

Lemma recommendations_failure_v1_v2_witness :
  productDetailsHandlerV1 (str "/product-details/3") (Responded 200 (Some Keyboard))
    (Responded 408 None) "t" =
    (HttpError 500 "Failed to get recommendations", 1%nat, 1%nat) /\
  response (productDetailsHandler (str "/product-details/3") (Responded 200 (Some Keyboard))
              (Responded 408 None) "t" 0 0 NewCircuitBreaker) =
    WriteJSON (mkProductDetails Keyboard (Some []) "t" true).
Proof.
  apply (recommendations_failure_v1_v2 (str "/product-details/3") (Responded 200 (Some Keyboard))
           (Responded 408 None) "t" 0 0 NewCircuitBreaker Keyboard (ErrStatus 408));
    reflexivity.
Defined.


Lemma handlers_ignore_surrounding_space_witness :
  getProductHandler (str "/product/" ++ [32; 9] ++ str "5" ++ [12288]) =
    getProductHandler (str "/product/" ++ str "5") /\
  getRecommendationsHandler (str "false")
    (str "/recommendations/" ++ [32; 9] ++ str "5" ++ [12288]) =
    getRecommendationsHandler (str "false") (str "/recommendations/" ++ str "5") /\
  productDetailsHandler (str "/product-details/" ++ [32; 9] ++ str "5" ++ [12288])
    GetFailed GetFailed "t" 0 0 NewCircuitBreaker =
    productDetailsHandler (str "/product-details/" ++ str "5")
      GetFailed GetFailed "t" 0 0 NewCircuitBreaker.
Proof.
  apply (handlers_ignore_surrounding_space [32; 9] (str "5") [12288]);
    reflexivity.
Defined.

End HttpFacts.
